(** * React Quiz: the [useReducer] state machine

    A shallow embedding of the quiz reducer (the "Core Reducer" listing of
    README.md, lines 132-201), of the [NextButton] component that guards the
    last question, and of the actions the components dispatch; then of the
    derived values, of the [Options] buttons and of the [Timer] display.

    Modelling conventions.
    - JavaScript numbers that the reducer handles are question counts,
      indices, points and seconds: integers, modelled as [Z].
    - A field that holds [null] or a number ([answer], [secondsRemaining])
      is an [option Z]; [None] is [null].
    - An action object [{ type, payload }] is a value of the closed type
      [Action]: one constructor per [case] label of the [switch], with the
      payload the dispatching component passes, and one constructor for the
      objects whose [type] is none of the labels.
    - A call of the reducer either returns the next state or throws; the two
      outcomes are the constructors of [Completion]. The reducer never
      mutates its argument (each case builds a new object with the spread
      syntax), so the input state is an immutable value here too. *)

From Stdlib Require Import ZArith List String Ascii Bool Lia.
From Stdlib Require Import DecimalString DecimalPos DecimalZ.
Import ListNotations.

Open Scope string_scope.
Open Scope list_scope.
Open Scope Z_scope.

(** ** Data model *)

(** One record of [public/questions.json] (README.md lines 100-111). *)
Module Question.
Record t : Type := mk {
  question : string;
  options : list string;
  correctOption : Z;
  points : Z;
}.
End Question.

(** README.md line 136: 'loading' | 'error' | 'ready' | 'active' | 'finished'. *)
Inductive Status : Type :=
  | loading
  | error
  | ready
  | active
  | finished.

(** The reducer state (README.md lines 134-142). *)
Record State : Type := mkState {
  questions : list Question.t;
  status : Status;
  index : Z;
  answer : option Z;
  points : Z;
  highscore : Z;
  secondsRemaining : option Z;
}.

(** The [case] labels of the [switch] (README.md lines 146-189). *)
Definition actionTypes : list string :=
  [ "dataReceived"; "dataFailed"; "start"; "newAnswer";
    "nextQuestion"; "finish"; "restart"; "tick" ].

Definition isActionType (type : string) : bool :=
  existsb (String.eqb type) actionTypes.

(** Action objects. [unknown type _] is an object whose [type] matches no
    [case] label; its payload, if any, is never read. *)
Inductive Action : Type :=
  | dataReceived (payload : list Question.t)
  | dataFailed
  | start
  | newAnswer (payload : Z)
  | nextQuestion
  | finish
  | restart
  | tick
  | unknown (type : string) (other : isActionType type = false).

(** The [type] property of an action object. *)
Definition type (action : Action) : string :=
  match action with
  | dataReceived _ => "dataReceived"
  | dataFailed => "dataFailed"
  | start => "start"
  | newAnswer _ => "newAnswer"
  | nextQuestion => "nextQuestion"
  | finish => "finish"
  | restart => "restart"
  | tick => "tick"
  | unknown type _ => type
  end.

(** What a call can throw: the [Error] built in the [default] case, or the
    engine's [TypeError] for a property read on [undefined]. *)
Inductive Exception : Type :=
  | Error (message : string)
  | TypeError.

Inductive Completion : Type :=
  | Return (state : State)
  | Throw (exception : Exception).

(** ** Primitives of the language that the reducer uses *)

(** [Array.prototype.at]: a negative index counts from the end; outside the
    array the result is [undefined], here [None]. *)
Definition Array_at {A : Type} (array : list A) (index : Z) : option A :=
  let len := Z.of_nat (List.length array) in
  let k := if 0 <=? index then index else len + index in
  if (k <? 0) || (len <=? k) then None else nth_error array (Z.to_nat k).

(** [ToNumber] on a value that is [null] or a number: [null] becomes 0. *)
Definition ToNumber (value : option Z) : Z :=
  match value with
  | Some n => n
  | None => 0
  end.

(** ** The reducer *)

(** README.md line 132. *)
Definition SECS_PER_QUESTION : Z := 30.

(** README.md lines 134-142. *)
Definition initialState : State :=
  {| questions := [];
     status := loading;
     index := 0;
     answer := None;
     points := 0;
     highscore := 0;
     secondsRemaining := None |}.

(** README.md lines 144-201. *)
Definition reducer (state : State) (action : Action) : Completion :=
  match action with
  | dataReceived payload =>
      Return {| questions := payload;
                status := ready;
                index := index state;
                answer := answer state;
                points := points state;
                highscore := highscore state;
                secondsRemaining := secondsRemaining state |}
  | dataFailed =>
      Return {| questions := questions state;
                status := error;
                index := index state;
                answer := answer state;
                points := points state;
                highscore := highscore state;
                secondsRemaining := secondsRemaining state |}
  | start =>
      Return {| questions := questions state;
                status := active;
                index := index state;
                answer := answer state;
                points := points state;
                highscore := highscore state;
                secondsRemaining :=
                  Some (Z.of_nat (List.length (questions state))
                        * SECS_PER_QUESTION) |}
  | newAnswer payload =>
      match Array_at (questions state) (index state) with
      | None => Throw TypeError
      | Some question =>
          Return {| questions := questions state;
                    status := status state;
                    index := index state;
                    answer := Some payload;
                    points :=
                      if payload =? Question.correctOption question
                      then points state + Question.points question
                      else points state;
                    highscore := highscore state;
                    secondsRemaining := secondsRemaining state |}
      end
  | nextQuestion =>
      Return {| questions := questions state;
                status := status state;
                index := index state + 1;
                answer := None;
                points := points state;
                highscore := highscore state;
                secondsRemaining := secondsRemaining state |}
  | finish =>
      Return {| questions := questions state;
                status := finished;
                index := index state;
                answer := answer state;
                points := points state;
                highscore := Z.max (points state) (highscore state);
                secondsRemaining := secondsRemaining state |}
  | restart =>
      Return {| questions := questions state;
                status := ready;
                index := index initialState;
                answer := answer initialState;
                points := points initialState;
                highscore := highscore state;
                secondsRemaining := secondsRemaining initialState |}
  | tick =>
      let next := ToNumber (secondsRemaining state) - 1 in
      Return {| questions := questions state;
                status := if next <=? 0 then finished else status state;
                index := index state;
                answer := answer state;
                points := points state;
                highscore := highscore state;
                secondsRemaining := Some next |}
  | unknown _ _ => Throw (Error "Action is unknown")
  end.

(** Successive dispatches: each action is reduced from the state the
    previous one returned; a throw ends the sequence. *)
Fixpoint dispatchAll (state : State) (actions : list Action) : Completion :=
  match actions with
  | [] => Return state
  | action :: rest =>
      match reducer state action with
      | Return next => dispatchAll next rest
      | Throw exception => Throw exception
      end
  end.

(** [n] ticks of the timer. *)
Definition ticks (n : nat) : list Action := repeat tick n.

(** ** The presentation-layer guard *)

(** A rendered button: its caption and the action its [onClick] dispatches. *)
Record Button : Type := mkButton {
  label : string;
  onClick : Action;
}.

(** NextButton.js lines 1-21. [None] is "nothing rendered": the component
    returns [null] without an answer and falls off its end past the last
    question. *)
Definition NextButton (answer : option Z) (numQuestions index : Z)
  : option Button :=
  match answer with
  | None => None
  | Some _ =>
      if index <? numQuestions - 1
      then Some {| label := "Next"; onClick := nextQuestion |}
      else if index =? numQuestions - 1
      then Some {| label := "Finish"; onClick := finish |}
      else None
  end.

(** ** Runs and play-through totals *)

(** The states a sequence of dispatches goes through, the first one
    included. *)
Fixpoint visited (state : State) (actions : list Action) : list State :=
  state ::
  match actions with
  | [] => []
  | action :: rest =>
      match reducer state action with
      | Return next => visited next rest
      | Throw _ => []
      end
  end.

Definition isFinished (state : State) : bool :=
  match status state with
  | finished => true
  | _ => false
  end.

(** The points a run had when its play-throughs were over: the points of
    every finished state it went through. *)
Definition playthroughTotals (state : State) (actions : list Action) : list Z :=
  map points (filter isFinished (visited state actions)).

Definition maximum (totals : list Z) : Z := fold_right Z.max 0 totals.

(** A state is reachable when dispatches from [initialState] return it. *)
Definition reachable (state : State) : Prop :=
  exists actions, dispatchAll initialState actions = Return state.

(** ** Sample data *)

Definition q10 : Question.t :=
  {| Question.question := "Which is the most popular JavaScript framework?";
     Question.options := ["Angular"; "React"; "Svelte"; "Vue"];
     Question.correctOption := 1;
     Question.points := 10 |}.

Definition q15 : Question.t :=
  {| Question.question := "What is the fundamental building block of React apps?";
     Question.options := ["Components"; "Blocks"; "Elements"; "Effects"];
     Question.correctOption := 2;
     Question.points := 15 |}.

Definition q20 : Question.t :=
  {| Question.question := "How does data flow naturally in React apps?";
     Question.options :=
       ["From parents to children"; "From children to parents";
        "Both ways"; "The developers decide"];
     Question.correctOption := 0;
     Question.points := 20 |}.

(** Three questions loaded, nothing started. *)
Definition readyState : State :=
  {| questions := [q10; q15; q20];
     status := ready;
     index := 0;
     answer := None;
     points := 0;
     highscore := 0;
     secondsRemaining := None |}.

(** Three questions loaded and the quiz just started. *)
Definition startedState : State :=
  {| questions := [q10; q15; q20];
     status := active;
     index := 0;
     answer := None;
     points := 0;
     highscore := 0;
     secondsRemaining := Some 90 |}.

(** The second question on screen, not answered yet. *)
Definition askingState : State :=
  {| questions := [q10; q15; q20];
     status := active;
     index := 1;
     answer := None;
     points := 10;
     highscore := 0;
     secondsRemaining := Some 70 |}.

(** The last question answered with one second left on the clock. *)
Definition lastSecondState : State :=
  {| questions := [q10; q15; q20];
     status := active;
     index := 2;
     answer := Some 0;
     points := 45;
     highscore := 20;
     secondsRemaining := Some 1 |}.

(** The clock has run out. *)
Definition timedOutState : State :=
  {| questions := [q10; q15; q20];
     status := finished;
     index := 2;
     answer := Some 0;
     points := 45;
     highscore := 20;
     secondsRemaining := Some 0 |}.

(** One question, answered correctly, then left until the clock runs out. *)
Definition timedOutRun : list Action :=
  [dataReceived [q10]; start; newAnswer 1] ++ ticks 30.

(** ** Derived values *)

(** README.md line 211. *)
Definition numQuestions (questions : list Question.t) : Z :=
  Z.of_nat (List.length questions).

(** README.md line 212: [questions.reduce((acc, q) => acc + q.points, 0)]. *)
Definition maxPoints (questions : list Question.t) : Z :=
  fold_left (fun acc q => acc + Question.points q) questions 0.

(** ** The option buttons *)

(** [Array.prototype.map] with a callback that takes the element and its
    index; [index] is the index of the first element of [array]. *)
Fixpoint Array_map {A B : Type} (callback : A -> Z -> B) (index : Z)
  (array : list A) : list B :=
  match array with
  | [] => []
  | element :: rest =>
      callback element index :: Array_map callback (index + 1) rest
  end.

(** [index === answer] where [answer] is [null] or a number. *)
Definition strictEquals (index : Z) (answer : option Z) : bool :=
  match answer with
  | Some chosen => index =? chosen
  | None => false
  end.

(** [answer !== null]. *)
Definition isNotNull (answer : option Z) : bool :=
  match answer with
  | Some _ => true
  | None => false
  end.

(** The props of one rendered option button. *)
Module OptionButton.
Record t : Type := mk {
  key : string;
  className : string;
  onClick : Action;
  disabled : bool;
  children : string;
}.
End OptionButton.

(** The [Options] component (NextButton.js lines 23-45): one button per
    option of the question. *)
Definition Options (question : Question.t) (answer : option Z)
  : list OptionButton.t :=
  let isAnswer := isNotNull answer in
  Array_map
    (fun option index =>
       {| OptionButton.key := option;
          OptionButton.className :=
            ("btn btn-option "
             ++ (if strictEquals index answer then "answer" else "")
             ++ " "
             ++ (if isAnswer
                 then if (index =? Question.correctOption question)%Z
                      then "correct" else "wrong"
                 else ""))%string;
          OptionButton.onClick := newAnswer index;
          OptionButton.disabled := isAnswer;
          OptionButton.children := option |})
    0 (Question.options question).

(** ** The timer display *)

(** [String(n)] for an integer [n]: its decimal digits, after a minus sign
    when it is negative. *)
Definition String_of (n : Z) : string :=
  NilZero.string_of_int (Z.to_int n).

(** The first [n] characters of [padString] repeated over and over; [rest]
    is what is left of the current copy. *)
Fixpoint filler (n : nat) (padString rest : string) : string :=
  match n with
  | O => EmptyString
  | S n' =>
      match rest with
      | String c more => String c (filler n' padString more)
      | EmptyString =>
          match padString with
          | String c more => String c (filler n' padString more)
          | EmptyString => EmptyString
          end
      end
  end.

(** [String.prototype.padStart]. *)
Definition padStart (targetLength : nat) (padString : string) (s : string)
  : string :=
  if (targetLength <=? String.length s)%nat then s
  else (filler (targetLength - String.length s) padString padString ++ s)%string.

(** The [Timer] component (unnamed/part_000 lines 3-19), its two constants
    and the text it renders. [secondsRemaining / 60] and
    [secondsRemaining % 60] convert [null] to 0; [Math.floor] of the
    quotient of integers is [Z.div], and [%] takes the sign of the dividend,
    as [Z.rem]. *)
Definition Timer_mins (secondsRemaining : option Z) : string :=
  String_of (ToNumber secondsRemaining / 60).

Definition Timer_secs (secondsRemaining : option Z) : string :=
  String_of (Z.rem (ToNumber secondsRemaining) 60).

Definition Timer (secondsRemaining : option Z) : string :=
  (padStart 2 "0" (Timer_mins secondsRemaining)
   ++ ":"
   ++ padStart 2 "0" (Timer_secs secondsRemaining))%string.

(** A decimal numeral read back as a number. *)
Definition readDecimal (s : string) : option Z :=
  option_map Z.of_int (NilZero.int_of_string s).

(** ** Actions that the components offer *)

(** What the user and the timer can dispatch in a state, when the components
    get the state's fields as the props of the same name, [numQuestions] as
    derived from the questions and the question at the current index:
    [Timer] dispatches [tick]; an option button that is not disabled
    dispatches its [onClick]; so does the button of [NextButton], if there
    is one. *)
Inductive offers (state : State) : Action -> Prop :=
  | offers_tick :
      offers state tick
  | offers_option (question : Question.t) (button : OptionButton.t) :
      Array_at (questions state) (index state) = Some question ->
      In button (Options question (answer state)) ->
      OptionButton.disabled button = false ->
      offers state (OptionButton.onClick button)
  | offers_next (button : Button) :
      NextButton (answer state) (numQuestions (questions state))
                 (index state) = Some button ->
      offers state (onClick button).

(** Every action of the sequence is offered in the state it is dispatched
    from. *)
Fixpoint driven (state : State) (actions : list Action) : Prop :=
  match actions with
  | [] => True
  | action :: rest =>
      offers state action /\
      match reducer state action with
      | Return next => driven next rest
      | Throw _ => True
      end
  end.

(** Every question answered with its correct option, in order: Next after
    each answer but the last, Finish after the last. *)
Fixpoint perfectRun (questions : list Question.t) : list Action :=
  match questions with
  | [] => []
  | question :: rest =>
      newAnswer (Question.correctOption question) ::
      match rest with
      | [] => [finish]
      | _ :: _ => nextQuestion :: perfectRun rest
      end
  end.

(** ** Reachable states

    The conditions that every reachable state meets. *)
Definition wellFormed (state : State) : Prop :=
  0 <= index state /\
  0 <= highscore state /\
  (status state = active ->
   exists seconds,
     secondsRemaining state = Some seconds /\
     0 <= seconds /\
     (questions state <> [] -> 0 < seconds)) /\
  (status state = loading ->
   questions state = [] /\ secondsRemaining state = None /\
   points state = 0 /\ highscore state = 0).

(** ** Play-throughs driven by the components

    [answered] is 1 once the current question has an answer. [inPlay] is
    what a play-through keeps: the loaded questions, the index within them,
    the points within what the questions reached so far are worth, and the
    high score within the larger of where it began and [maxPoints]. *)
Definition answered (state : State) : nat :=
  if isNotNull (answer state) then 1%nat else 0%nat.

Definition inPlay (loaded : list Question.t) (best : Z) (state : State)
  : Prop :=
  questions state = loaded /\
  0 <= index state /\
  (index state = 0 \/ index state < numQuestions loaded) /\
  (answer state <> None -> index state < numQuestions loaded) /\
  0 <= points state /\
  points state
    <= maxPoints (firstn (Z.to_nat (index state) + answered state) loaded) /\
  highscore state <= Z.max best (maxPoints loaded).

(** ** General facts *)

Lemma dispatchAll_app (actions rest : list Action) :
  forall state,
    dispatchAll state (actions ++ rest) =
    match dispatchAll state actions with
    | Return next => dispatchAll next rest
    | Throw exception => Throw exception
    end.
Proof.
  induction actions as [|action actions IH]; intros state; simpl.
  - reflexivity.
  - destruct (reducer state action) as [next|exception]; [apply IH|reflexivity].
Qed.

Lemma ticks_succ (n : nat) : ticks (S n) = ticks n ++ [tick].
Proof.
  unfold ticks. induction n as [|n IH]; simpl in *; [reflexivity|].
  now rewrite <- IH.
Qed.

(** [at] finds an element exactly for the indices from [-length] up to
    [length - 1]. *)
Lemma Array_at_None {A : Type} (array : list A) (index : Z) :
  Array_at array index = None <->
  ~ (- Z.of_nat (List.length array) <= index < Z.of_nat (List.length array)).
Proof.
  unfold Array_at.
  destruct (0 <=? index) eqn:Hsign;
    [apply Z.leb_le in Hsign | apply Z.leb_gt in Hsign].
  - destruct (index <? 0) eqn:Hneg; [apply Z.ltb_lt in Hneg; lia|].
    simpl. destruct (Z.of_nat (List.length array) <=? index) eqn:Hlen.
    + apply Z.leb_le in Hlen. split; [lia | reflexivity].
    + apply Z.leb_gt in Hlen. rewrite nth_error_None. lia.
  - destruct (Z.of_nat (List.length array) + index <? 0) eqn:Hneg.
    + apply Z.ltb_lt in Hneg. simpl. split; [lia | reflexivity].
    + apply Z.ltb_ge in Hneg. simpl.
      destruct (Z.of_nat (List.length array)
                <=? Z.of_nat (List.length array) + index) eqn:Hlen;
        [apply Z.leb_le in Hlen; lia|].
      rewrite nth_error_None. lia.
Qed.

(** Within the array, [at] is the element at that position. *)
Lemma Array_at_nth {A : Type} (array : list A) (index : Z) :
  0 <= index < Z.of_nat (List.length array) ->
  Array_at array index = nth_error array (Z.to_nat index).
Proof.
  intros [Hlow Hhigh]. unfold Array_at.
  apply Z.leb_le in Hlow. rewrite Hlow.
  apply Z.leb_le in Hlow.
  destruct (index <? 0) eqn:Hneg; [apply Z.ltb_lt in Hneg; lia|].
  destruct (Z.of_nat (List.length array) <=? index) eqn:Hlen;
    [apply Z.leb_le in Hlen; lia | reflexivity].
Qed.

(** One tick, whatever the status: the clock goes down by one, the status
    becomes [finished] at zero or below, and nothing else changes. *)
Lemma reducer_tick (state : State) :
  reducer state tick =
  Return {| questions := questions state;
            status :=
              if ToNumber (secondsRemaining state) - 1 <=? 0
              then finished else status state;
            index := index state;
            answer := answer state;
            points := points state;
            highscore := highscore state;
            secondsRemaining := Some (ToNumber (secondsRemaining state) - 1) |}.
Proof. reflexivity. Qed.

(** While the clock stays above zero the quiz stays active. *)
Lemma ticks_before_expiry (k : nat) :
  forall state seconds,
    status state = active ->
    secondsRemaining state = Some seconds ->
    Z.of_nat k < seconds ->
    dispatchAll state (ticks k) =
    Return {| questions := questions state;
              status := active;
              index := index state;
              answer := answer state;
              points := points state;
              highscore := highscore state;
              secondsRemaining := Some (seconds - Z.of_nat k) |}.
Proof.
  induction k as [|k IH]; intros state seconds Hactive Hclock Hlt.
  - destruct state; simpl in *. subst. do 2 f_equal. f_equal. lia.
  - rewrite ticks_succ, dispatchAll_app.
    rewrite (IH state seconds Hactive Hclock) by lia.
    simpl. unfold ToNumber.
    destruct (seconds - Z.of_nat k - 1 <=? 0) eqn:Hzero;
      [apply Z.leb_le in Hzero; lia|].
    do 3 f_equal. lia.
Qed.

(** The tick that brings the clock to zero finishes the quiz. *)
Lemma ticks_at_expiry (state : State) (seconds : Z) :
  status state = active ->
  secondsRemaining state = Some seconds ->
  1 <= seconds ->
  dispatchAll state (ticks (Z.to_nat seconds)) =
  Return {| questions := questions state;
            status := finished;
            index := index state;
            answer := answer state;
            points := points state;
            highscore := highscore state;
            secondsRemaining := Some 0 |}.
Proof.
  intros Hactive Hclock Hpos.
  replace (Z.to_nat seconds) with (S (Z.to_nat (seconds - 1))) by lia.
  rewrite ticks_succ, dispatchAll_app.
  rewrite (ticks_before_expiry _ state seconds Hactive Hclock) by lia.
  simpl. unfold ToNumber.
  replace (seconds - Z.of_nat (Z.to_nat (seconds - 1)) - 1) with 0 by lia.
  reflexivity.
Qed.

(** [restart], whatever the status: [initialState] again, except that the
    questions and the high score are kept and the status is [ready]. *)
Lemma reducer_restart (state : State) :
  reducer state restart =
  Return {| questions := questions state;
            status := ready;
            index := 0;
            answer := None;
            points := 0;
            highscore := highscore state;
            secondsRemaining := None |}.
Proof. reflexivity. Qed.

(** The timed-out run is a run of the reducer: its last state is reachable. *)
Lemma timedOutRun_reachable :
  reachable {| questions := [q10];
               status := finished;
               index := 0;
               answer := Some 1;
               points := 10;
               highscore := 0;
               secondsRemaining := Some 0 |}.
Proof. exists timedOutRun. vm_compute. reflexivity. Qed.

(** ** The timer *)

(** C1 (the code departs from the claim). The claim: a tick on an active
    state takes one second off the clock and, when that reaches zero or
    below, finishes the quiz with the high score raised to
    max(points, highscore), as [finish] does. The code at [lastSecondState]
    (active, 45 points, high score 20, one second left): the tick finishes
    the quiz and leaves the high score at 20, where [finish] on the same
    state records 45. *)
Theorem tick_expiry_keeps_old_highscore :
  status lastSecondState = active /\
  points lastSecondState = 45 /\
  highscore lastSecondState = 20 /\
  secondsRemaining lastSecondState = Some 1 /\
  reducer lastSecondState tick =
    Return {| questions := [q10; q15; q20];
              status := finished;
              index := 2;
              answer := Some 0;
              points := 45;
              highscore := 20;
              secondsRemaining := Some 0 |} /\
  reducer lastSecondState finish =
    Return {| questions := [q10; q15; q20];
              status := finished;
              index := 2;
              answer := Some 0;
              points := 45;
              highscore := 45;
              secondsRemaining := Some 1 |}.
Proof. repeat split. Qed.

(** C2 (the claim as stated fails). [timedOutState] is finished with the
    clock at zero; one more tick returns a different state, with the clock
    at -1. *)
Lemma tick_after_expiry_changes_state :
  status timedOutState = finished /\
  secondsRemaining timedOutState = Some 0 /\
  dispatchAll timedOutState (ticks 1) =
    Return {| questions := [q10; q15; q20];
              status := finished;
              index := 2;
              answer := Some 0;
              points := 45;
              highscore := 20;
              secondsRemaining := Some (-1) |} /\
  dispatchAll timedOutState (ticks 1) <> Return timedOutState.
Proof. repeat split. discriminate. Qed.

(** C2 (amended). On a finished state, one or more ticks leave the status
    finished and the questions, index, answer, points and high score as they
    were; the clock alone keeps going down, by one per tick. *)
Theorem ticks_when_finished (state : State) (n : nat) :
  status state = finished ->
  dispatchAll state (ticks (S n)) =
  Return {| questions := questions state;
            status := finished;
            index := index state;
            answer := answer state;
            points := points state;
            highscore := highscore state;
            secondsRemaining :=
              Some (ToNumber (secondsRemaining state) - Z.of_nat (S n)) |}.
Proof.
  intros Hfinished. induction n as [|n IH].
  - simpl. rewrite Hfinished.
    destruct (ToNumber (secondsRemaining state) - 1 <=? 0); reflexivity.
  - rewrite ticks_succ, dispatchAll_app, IH. simpl.
    match goal with |- context [if ?c then _ else _] => destruct c end;
      do 3 f_equal; lia.
Qed.

Lemma ticks_when_finished_witness :
  status timedOutState = finished /\
  dispatchAll timedOutState (ticks 3) =
  Return {| questions := [q10; q15; q20];
            status := finished;
            index := 2;
            answer := Some 0;
            points := 45;
            highscore := 20;
            secondsRemaining := Some (-3) |}.
Proof.
  split; [reflexivity|].
  exact (ticks_when_finished timedOutState 2 eq_refl).
Defined.

(** ** Restart *)

(** C3 (the code departs from the claim). The claim: [restart] on a
    reachable finished state gives [initialState] with status [ready], the
    questions kept and the high score equal to the largest points total of
    the play-throughs so far. The code on [timedOutRun] (one question worth
    10 answered correctly, then thirty ticks): the run ends finished with 10
    points, the only play-through total is 10, and [restart] returns a high
    score of 0. *)
Theorem restart_after_timeout_forgets_total :
  dispatchAll initialState timedOutRun =
    Return {| questions := [q10];
              status := finished;
              index := 0;
              answer := Some 1;
              points := 10;
              highscore := 0;
              secondsRemaining := Some 0 |} /\
  playthroughTotals initialState timedOutRun = [10] /\
  maximum (playthroughTotals initialState timedOutRun) = 10 /\
  dispatchAll initialState (timedOutRun ++ [restart]) =
    Return {| questions := [q10];
              status := ready;
              index := 0;
              answer := None;
              points := 0;
              highscore := 0;
              secondsRemaining := None |}.
Proof. repeat split. Qed.

(** ** Start *)

(** C4. [start] on a ready state makes it active with
    questions.length * SECS_PER_QUESTION seconds on the clock, and
    SECS_PER_QUESTION is 30. With three questions that is 90 seconds: fewer
    than 90 ticks leave the quiz active, and the 90th finishes it. *)
Theorem start_sets_the_clock (state : State) :
  status state = ready ->
  SECS_PER_QUESTION = 30 /\
  exists next,
    reducer state start = Return next /\
    next = {| questions := questions state;
              status := active;
              index := index state;
              answer := answer state;
              points := points state;
              highscore := highscore state;
              secondsRemaining :=
                Some (Z.of_nat (List.length (questions state))
                      * SECS_PER_QUESTION) |} /\
    (List.length (questions state) = 3%nat ->
     secondsRemaining next = Some 90 /\
     (forall k, (k < 90)%nat ->
        exists later,
          dispatchAll next (ticks k) = Return later /\
          status later = active) /\
     (exists final,
        dispatchAll next (ticks 90) = Return final /\
        status final = finished)).
Proof.
  intros _. split; [reflexivity|].
  eexists. split; [reflexivity|]. split; [reflexivity|].
  intros Hthree.
  assert (Hclock :
    Z.of_nat (List.length (questions state)) * SECS_PER_QUESTION = 90)
    by (rewrite Hthree; reflexivity).
  cbn [secondsRemaining]. rewrite Hclock. split; [reflexivity|]. split.
  - intros k Hk. eexists. split.
    + apply ticks_before_expiry with (seconds := 90);
        [reflexivity | reflexivity | lia].
    + reflexivity.
  - eexists. split.
    + change 90%nat with (Z.to_nat 90).
      apply ticks_at_expiry; [reflexivity | reflexivity | lia].
    + reflexivity.
Qed.

Lemma start_sets_the_clock_witness :
  status readyState = ready /\
  SECS_PER_QUESTION = 30 /\
  exists next,
    reducer readyState start = Return next /\
    next = {| questions := [q10; q15; q20];
              status := active;
              index := 0;
              answer := None;
              points := 0;
              highscore := 0;
              secondsRemaining := Some 90 |} /\
    (List.length (questions readyState) = 3%nat ->
     secondsRemaining next = Some 90 /\
     (forall k, (k < 90)%nat ->
        exists later,
          dispatchAll next (ticks k) = Return later /\
          status later = active) /\
     (exists final,
        dispatchAll next (ticks 90) = Return final /\
        status final = finished)).
Proof.
  split; [reflexivity|].
  exact (start_sets_the_clock readyState eq_refl).
Defined.

(** ** Answering *)

(** C5. On an active state with no answer yet and the index within the
    questions, [newAnswer] records the chosen option, adds the current
    question's points exactly when the choice is its correct option, and
    leaves the status (active) and everything else alone. With correct
    option 2 worth 15 points, choosing 2 adds 15 and records answer 2. *)
Theorem newAnswer_scores_current_question (state : State) (payload : Z) :
  status state = active ->
  answer state = None ->
  0 <= index state < Z.of_nat (List.length (questions state)) ->
  exists question next,
    nth_error (questions state) (Z.to_nat (index state)) = Some question /\
    reducer state (newAnswer payload) = Return next /\
    next = {| questions := questions state;
              status := active;
              index := index state;
              answer := Some payload;
              points :=
                if payload =? Question.correctOption question
                then points state + Question.points question
                else points state;
              highscore := highscore state;
              secondsRemaining := secondsRemaining state |} /\
    (payload = Question.correctOption question ->
     points next = points state + Question.points question) /\
    (payload <> Question.correctOption question ->
     points next = points state) /\
    (Question.correctOption question = 2 ->
     Question.points question = 15 ->
     payload = 2 ->
     points next = points state + 15 /\
     answer next = Some 2 /\
     status next = active).
Proof.
  intros Hactive _ Hindex.
  destruct (nth_error (questions state) (Z.to_nat (index state)))
    as [question|] eqn:Hnth.
  2: { apply nth_error_None in Hnth. lia. }
  exists question. eexists. split; [reflexivity|].
  unfold reducer. rewrite (Array_at_nth _ _ Hindex), Hnth, Hactive.
  split; [reflexivity|]. split; [reflexivity|].
  cbn [points answer status]. split; [|split].
  - intros ->. now rewrite Z.eqb_refl.
  - intros Hwrong. apply Z.eqb_neq in Hwrong. now rewrite Hwrong.
  - intros Hcorrect Hworth ->.
    rewrite Hcorrect, Z.eqb_refl, Hworth. repeat split.
Qed.

Lemma newAnswer_scores_current_question_witness :
  status askingState = active /\
  answer askingState = None /\
  0 <= index askingState < Z.of_nat (List.length (questions askingState)) /\
  reducer askingState (newAnswer 2) =
    Return {| questions := [q10; q15; q20];
              status := active;
              index := 1;
              answer := Some 2;
              points := 25;
              highscore := 0;
              secondsRemaining := Some 70 |}.
Proof.
  repeat (split; [reflexivity || (simpl; lia)|]).
  destruct (newAnswer_scores_current_question askingState 2)
    as (question & next & Hcurrent & Hreturn & Hnext & _);
    [reflexivity | reflexivity | simpl; lia |].
  rewrite Hreturn, Hnext.
  injection Hcurrent as <-. reflexivity.
Defined.

(** ** Finishing *)

(** C6. [finish] on an active state returns it finished, with the high
    score set to max(points, highscore) and every other field as it was; so
    right after a finish the high score is max(old high score, points). *)
Theorem finish_records_highscore (state : State) :
  status state = active ->
  exists next,
    reducer state finish = Return next /\
    next = {| questions := questions state;
              status := finished;
              index := index state;
              answer := answer state;
              points := points state;
              highscore := Z.max (points state) (highscore state);
              secondsRemaining := secondsRemaining state |} /\
    highscore next = Z.max (highscore state) (points next).
Proof.
  intros _. eexists. split; [reflexivity|]. split; [reflexivity|].
  simpl. apply Z.max_comm.
Qed.

Lemma finish_records_highscore_witness :
  status lastSecondState = active /\
  exists next,
    reducer lastSecondState finish = Return next /\
    next = {| questions := [q10; q15; q20];
              status := finished;
              index := 2;
              answer := Some 0;
              points := 45;
              highscore := 45;
              secondsRemaining := Some 1 |} /\
    highscore next = Z.max (highscore lastSecondState) (points next).
Proof.
  split; [reflexivity|].
  exact (finish_records_highscore lastSecondState eq_refl).
Defined.

(** ** Unknown actions *)

(** C7. An action whose type is none of dataReceived, dataFailed, start,
    newAnswer, nextQuestion, finish, restart, tick makes the reducer throw
    Error('Action is unknown'): the call returns no next state at all, so
    nothing of the state is updated. *)
Theorem unknown_action_throws (state : State) (action : Action) :
  isActionType (type action) = false ->
  reducer state action = Throw (Error "Action is unknown") /\
  (forall next, reducer state action <> Return next).
Proof.
  intros Hother.
  destruct action; try discriminate Hother;
    (split; [reflexivity | discriminate]).
Qed.

Lemma unknown_action_throws_witness :
  isActionType (type (unknown "reset" eq_refl)) = false /\
  reducer askingState (unknown "reset" eq_refl) =
    Throw (Error "Action is unknown") /\
  (forall next, reducer askingState (unknown "reset" eq_refl) <> Return next).
Proof.
  split; [reflexivity|].
  exact (unknown_action_throws askingState (unknown "reset" eq_refl) eq_refl).
Defined.

(** The eight action types are the eight typed constructors. *)
Lemma isActionType_type (action : Action) :
  isActionType (type action) = true <->
  (forall type other, action <> unknown type other).
Proof.
  destruct action as [| | | | | | | |unknownType undeclared];
    simpl; split; try discriminate; try reflexivity.
  - intros Hdeclared. congruence.
  - intros Hnot. now contradiction (Hnot unknownType undeclared).
Qed.

(** ** Score monotonicity *)

(** No dispatch lowers the high score, and so no run does. *)
Lemma reducer_highscore_le (state next : State) (action : Action) :
  reducer state action = Return next ->
  highscore state <= highscore next.
Proof.
  destruct action; simpl;
    try (intros Hreturn; injection Hreturn as <-; simpl; lia).
  - destruct (Array_at (questions state) (index state)); [|discriminate].
    intros Hreturn. injection Hreturn as <-. simpl. lia.
  - discriminate.
Qed.

Lemma dispatchAll_highscore_le (actions : list Action) :
  forall state next,
    dispatchAll state actions = Return next ->
    highscore state <= highscore next.
Proof.
  induction actions as [|action actions IH]; intros state next; simpl.
  - intros Hreturn. injection Hreturn as <-. lia.
  - destruct (reducer state action) as [middle|] eqn:Hstep; [|discriminate].
    intros Hrest. apply reducer_highscore_le in Hstep.
    apply IH in Hrest. lia.
Qed.

(** C8. When no loaded question has negative points, a dispatch that returns
    a state never lowers the high score, and never lowers the points unless
    the action is [restart]. *)
Theorem scores_never_decrease (state next : State) (action : Action) :
  Forall (fun question => 0 <= Question.points question) (questions state) ->
  reducer state action = Return next ->
  (action <> restart -> points state <= points next) /\
  highscore state <= highscore next.
Proof.
  intros Hpoints Hreturn.
  destruct action; simpl in Hreturn;
    try (injection Hreturn as <-; simpl; split; [intros _|]; lia).
  - destruct (Array_at (questions state) (index state))
      as [question|] eqn:Hat; [|discriminate].
    injection Hreturn as <-. simpl. split; [intros _ | lia].
    assert (Hin : In question (questions state)).
    { unfold Array_at in Hat.
      destruct (_ || _); [discriminate|].
      now apply nth_error_In in Hat. }
    rewrite Forall_forall in Hpoints. specialize (Hpoints _ Hin).
    destruct (payload =? Question.correctOption question); lia.
  - injection Hreturn as <-. simpl. split; [congruence | lia].
  - discriminate.
Qed.

Lemma scores_never_decrease_witness :
  Forall (fun question => 0 <= Question.points question)
         (questions askingState) /\
  reducer askingState (newAnswer 2) =
    Return {| questions := [q10; q15; q20];
              status := active;
              index := 1;
              answer := Some 2;
              points := 25;
              highscore := 0;
              secondsRemaining := Some 70 |} /\
  (newAnswer 2 <> restart -> points askingState <= 25) /\
  highscore askingState <= 0.
Proof.
  assert (Hpoints :
    Forall (fun question => 0 <= Question.points question)
           (questions askingState))
    by (repeat constructor; discriminate).
  split; [exact Hpoints|]. split; [reflexivity|].
  exact (scores_never_decrease askingState _ (newAnswer 2) Hpoints eq_refl).
Defined.

(** ** Purity and totality *)

(** C9 (the claim as stated fails). [newAnswer] is one of the declared
    action types, and on [initialState], which has no question at index 0,
    the reducer throws a TypeError instead of returning a state. *)
Lemma newAnswer_without_question_throws :
  isActionType (type (newAnswer 0)) = true /\
  reducer initialState (newAnswer 0) = Throw TypeError /\
  ~ (exists next, reducer initialState (newAnswer 0) = Return next).
Proof.
  repeat split. intros [next Hreturn]. discriminate Hreturn.
Qed.

(** C9 (amended). The reducer is a function of the state and the action
    alone: equal inputs give equal outcomes. For every action of a declared
    type other than newAnswer it returns a next state. For newAnswer it
    returns a next state exactly when the index addresses a question, that
    is -questions.length <= index < questions.length, and throws a
    TypeError otherwise. *)
Theorem reducer_total_except_newAnswer (state : State) (action : Action) :
  isActionType (type action) = true ->
  (forall state' action',
     state' = state -> action' = action ->
     reducer state' action' = reducer state action) /\
  ((forall payload, action <> newAnswer payload) ->
   exists next, reducer state action = Return next) /\
  (forall payload, action = newAnswer payload ->
     ((exists next, reducer state action = Return next) <->
      - Z.of_nat (List.length (questions state)) <= index state
        < Z.of_nat (List.length (questions state))) /\
     (reducer state action = Throw TypeError <->
      ~ (- Z.of_nat (List.length (questions state)) <= index state
         < Z.of_nat (List.length (questions state))))).
Proof.
  intros Hdeclared. split; [|split].
  - intros state' action' -> ->. reflexivity.
  - intros Hother.
    destruct action as [| | |payload| | | | |unknownType undeclared];
      try (eexists; reflexivity).
    + now contradiction (Hother payload).
    + simpl in Hdeclared. congruence.
  - intros payload ->. simpl.
    pose proof (Array_at_None (questions state) (index state)) as Hnone.
    destruct (Array_at (questions state) (index state)) as [question|].
    + assert (Hin : - Z.of_nat (List.length (questions state)) <= index state
                    < Z.of_nat (List.length (questions state))).
      { destruct (Z.le_gt_cases (- Z.of_nat (List.length (questions state)))
                                (index state));
          destruct (Z.lt_ge_cases (index state)
                                  (Z.of_nat (List.length (questions state))));
          try lia;
          (assert (Hfalse : Some question = None)
             by (apply Hnone; lia); discriminate). }
      split; split; try discriminate.
      * intros _. exact Hin.
      * intros _. eexists. reflexivity.
      * intros Hout. contradiction.
    + assert (Hout : ~ (- Z.of_nat (List.length (questions state))
                        <= index state
                        < Z.of_nat (List.length (questions state))))
        by (apply Hnone; reflexivity).
      split; split.
      * intros [next Hreturn]. discriminate.
      * intros Hin. contradiction.
      * intros _. exact Hout.
      * intros _. reflexivity.
Qed.

Lemma reducer_total_except_newAnswer_witness :
  isActionType (type (newAnswer 2)) = true /\
  ((exists next, reducer askingState (newAnswer 2) = Return next) <->
   - Z.of_nat (List.length (questions askingState)) <= index askingState
     < Z.of_nat (List.length (questions askingState))).
Proof.
  split; [reflexivity|].
  exact (proj1 (proj2 (proj2
    (reducer_total_except_newAnswer askingState (newAnswer 2) eq_refl))
    2 eq_refl)).
Defined.

(** ** Moving on *)

(** C10. [nextQuestion] returns the state with the index one higher and the
    answer cleared, and nothing else changed, whatever the index was: from
    an active state on the last question the index becomes questions.length
    and the status stays active. The guard is [NextButton]: once an answer
    is given it offers Finish, dispatching [finish], on the last question,
    and it offers Next, dispatching [nextQuestion], only before the last
    question. *)
Theorem nextQuestion_has_no_upper_bound (state : State) :
  reducer state nextQuestion =
    Return {| questions := questions state;
              status := status state;
              index := index state + 1;
              answer := None;
              points := points state;
              highscore := highscore state;
              secondsRemaining := secondsRemaining state |} /\
  (status state = active ->
   index state = Z.of_nat (List.length (questions state)) - 1 ->
   exists next,
     reducer state nextQuestion = Return next /\
     index next = Z.of_nat (List.length (questions state)) /\
     status next = active) /\
  (forall chosen numQuestions,
     NextButton (Some chosen) numQuestions (numQuestions - 1) =
     Some {| label := "Finish"; onClick := finish |}) /\
  (forall selected numQuestions current button,
     NextButton selected numQuestions current = Some button ->
     onClick button = nextQuestion ->
     current < numQuestions - 1).
Proof.
  split; [reflexivity|]. split; [|split].
  - intros Hactive Hlast. eexists. split; [reflexivity|].
    simpl. split; [lia | exact Hactive].
  - intros chosen numQuestions. unfold NextButton.
    rewrite Z.ltb_irrefl, Z.eqb_refl. reflexivity.
  - intros selected numQuestions current button. unfold NextButton.
    destruct selected as [chosen|]; [|discriminate].
    destruct (current <? numQuestions - 1) eqn:Hbefore.
    + intros _ _. now apply Z.ltb_lt.
    + destruct (current =? numQuestions - 1); [|discriminate].
      intros Hbutton. injection Hbutton as <-. discriminate.
Qed.

Lemma nextQuestion_has_no_upper_bound_witness :
  status lastSecondState = active /\
  index lastSecondState
    = Z.of_nat (List.length (questions lastSecondState)) - 1 /\
  exists next,
    reducer lastSecondState nextQuestion = Return next /\
    index next = Z.of_nat (List.length (questions lastSecondState)) /\
    status next = active.
Proof.
  split; [reflexivity|]. split; [reflexivity|].
  exact (proj1 (proj2 (nextQuestion_has_no_upper_bound lastSecondState))
           eq_refl eq_refl).
Defined.

(** ** Further properties of the reducer *)

(** A property that every returned step preserves holds along every run. *)
Lemma dispatchAll_preserves (P : State -> Prop) :
  (forall state action next,
     P state -> reducer state action = Return next -> P next) ->
  forall actions state next,
    P state -> dispatchAll state actions = Return next -> P next.
Proof.
  intros Hstep actions.
  induction actions as [|action actions IH]; intros state next HP; simpl.
  - intros Hreturn. injection Hreturn as <-. exact HP.
  - destruct (reducer state action) as [middle|] eqn:Hreducer; [|discriminate].
    apply IH. exact (Hstep _ _ _ HP Hreducer).
Qed.

(** X1. The countdown from any active state with [seconds >= 1] on the
    clock: after fewer than [seconds] ticks the quiz is still active with
    that many seconds less, the tick number [seconds] finishes it with the
    clock at 0, and nothing but the clock and the status has changed. *)
Theorem countdown_finishes_on_time (state : State) (seconds : Z) :
  status state = active ->
  secondsRemaining state = Some seconds ->
  1 <= seconds ->
  (forall k : nat,
     Z.of_nat k < seconds ->
     dispatchAll state (ticks k) =
     Return {| questions := questions state;
               status := active;
               index := index state;
               answer := answer state;
               points := points state;
               highscore := highscore state;
               secondsRemaining := Some (seconds - Z.of_nat k) |}) /\
  dispatchAll state (ticks (Z.to_nat seconds)) =
  Return {| questions := questions state;
            status := finished;
            index := index state;
            answer := answer state;
            points := points state;
            highscore := highscore state;
            secondsRemaining := Some 0 |}.
Proof.
  intros Hactive Hclock Hpositive. split.
  - intros k Hbefore. now apply ticks_before_expiry.
  - now apply ticks_at_expiry.
Qed.

Lemma countdown_finishes_on_time_witness :
  dispatchAll askingState (ticks 69) =
    Return {| questions := [q10; q15; q20];
              status := active;
              index := 1;
              answer := None;
              points := 10;
              highscore := 0;
              secondsRemaining := Some 1 |} /\
  dispatchAll askingState (ticks 70) =
    Return {| questions := [q10; q15; q20];
              status := finished;
              index := 1;
              answer := None;
              points := 10;
              highscore := 0;
              secondsRemaining := Some 0 |}.
Proof.
  destruct (countdown_finishes_on_time askingState 70 eq_refl eq_refl)
    as [Hbefore Hexpiry]; [lia|].
  split; [apply (Hbefore 69%nat); lia | exact Hexpiry].
Defined.

(** X2. [start] with no question loaded still makes the quiz active, with 0
    seconds on the clock; the first tick then finishes it with the clock at
    -1. With at least one question the quiz stays active for fewer than
    30 * questions.length ticks and is finished by that tick, at 0. *)
Theorem start_then_countdown (state : State) :
  (questions state = [] ->
   dispatchAll state [start] =
     Return {| questions := [];
               status := active;
               index := index state;
               answer := answer state;
               points := points state;
               highscore := highscore state;
               secondsRemaining := Some 0 |} /\
   dispatchAll state [start; tick] =
     Return {| questions := [];
               status := finished;
               index := index state;
               answer := answer state;
               points := points state;
               highscore := highscore state;
               secondsRemaining := Some (-1) |}) /\
  (questions state <> [] ->
   (forall k : nat,
      Z.of_nat k < 30 * numQuestions (questions state) ->
      exists later,
        dispatchAll state (start :: ticks k) = Return later /\
        status later = active /\
        secondsRemaining later =
          Some (30 * numQuestions (questions state) - Z.of_nat k)) /\
   exists final,
     dispatchAll state
       (start :: ticks (Z.to_nat (30 * numQuestions (questions state))))
     = Return final /\
     status final = finished /\
     secondsRemaining final = Some 0 /\
     points final = points state /\
     highscore final = highscore state).
Proof.
  split.
  - intros Hempty. simpl. rewrite Hempty. split; reflexivity.
  - intros Hloaded.
    assert (Hpositive : 1 <= 30 * numQuestions (questions state)).
    { unfold numQuestions. destruct (questions state); [congruence|].
      simpl List.length. lia. }
    set (started :=
      {| questions := questions state;
         status := active;
         index := index state;
         answer := answer state;
         points := points state;
         highscore := highscore state;
         secondsRemaining := Some (30 * numQuestions (questions state)) |}).
    assert (Hstart : reducer state start = Return started).
    { unfold started, numQuestions, reducer, SECS_PER_QUESTION.
      do 3 f_equal. lia. }
    split.
    + intros k Hbefore. eexists.
      cbn [dispatchAll]. rewrite Hstart. split.
      * apply (ticks_before_expiry k started
                 (30 * numQuestions (questions state)));
          [reflexivity | reflexivity | exact Hbefore].
      * split; reflexivity.
    + eexists. cbn [dispatchAll]. rewrite Hstart. split.
      * apply (ticks_at_expiry started
                 (30 * numQuestions (questions state)));
          [reflexivity | reflexivity | exact Hpositive].
      * repeat split.
Qed.

Lemma start_then_countdown_witness :
  (questions initialState = [] /\
   dispatchAll initialState [start; tick] =
     Return {| questions := [];
               status := finished;
               index := 0;
               answer := None;
               points := 0;
               highscore := 0;
               secondsRemaining := Some (-1) |}) /\
  (questions readyState <> [] /\
   exists final,
     dispatchAll readyState
       (start :: ticks (Z.to_nat (30 * numQuestions (questions readyState))))
     = Return final /\
     status final = finished /\
     secondsRemaining final = Some 0 /\
     points final = points readyState /\
     highscore final = highscore readyState).
Proof.
  split.
  - split; [reflexivity|].
    exact (proj2 (proj1 (start_then_countdown initialState) eq_refl)).
  - assert (Hloaded : questions readyState <> []) by discriminate.
    split; [exact Hloaded|].
    exact (proj2 (proj2 (start_then_countdown readyState) Hloaded)).
Defined.

(** X3. The reducer does not remember that a question was answered: a
    second [newAnswer] on the same question replaces the recorded answer
    and scores again, so the correct option dispatched twice adds the
    question's points twice. *)
Theorem second_answer_scores_again
  (state : State) (question : Question.t) (first second : Z) :
  Array_at (questions state) (index state) = Some question ->
  dispatchAll state [newAnswer first; newAnswer second] =
  Return {| questions := questions state;
            status := status state;
            index := index state;
            answer := Some second;
            points :=
              points state
              + (if first =? Question.correctOption question
                 then Question.points question else 0)
              + (if second =? Question.correctOption question
                 then Question.points question else 0);
            highscore := highscore state;
            secondsRemaining := secondsRemaining state |}.
Proof.
  intros Hcurrent. simpl. rewrite Hcurrent. simpl. rewrite Hcurrent.
  destruct (first =? Question.correctOption question),
           (second =? Question.correctOption question);
    do 2 f_equal; lia.
Qed.

Lemma second_answer_scores_again_witness :
  Array_at (questions askingState) (index askingState) = Some q15 /\
  dispatchAll askingState [newAnswer 2; newAnswer 2] =
  Return {| questions := [q10; q15; q20];
            status := active;
            index := 1;
            answer := Some 2;
            points := 40;
            highscore := 0;
            secondsRemaining := Some 70 |}.
Proof.
  split; [reflexivity|].
  exact (second_answer_scores_again askingState q15 2 2 eq_refl).
Defined.

(** X4. Only [dataReceived] replaces the questions: a run that dispatches
    none returns a state with the questions it started from. *)
Theorem questions_change_only_on_load (actions : list Action) :
  forall state next,
    (forall payload, ~ In (dataReceived payload) actions) ->
    dispatchAll state actions = Return next ->
    questions next = questions state.
Proof.
  induction actions as [|action actions IH]; intros state next Hnone; simpl.
  - intros Hreturn. injection Hreturn as <-. reflexivity.
  - destruct (reducer state action) as [middle|] eqn:Hstep; [|discriminate].
    intros Hrest.
    rewrite (IH middle next) by
      (try exact Hrest; intros payload Hin; apply (Hnone payload); now right).
    destruct action; simpl in Hstep;
      try (injection Hstep as <-; reflexivity).
    + now contradiction (Hnone payload (or_introl eq_refl)).
    + destruct (Array_at (questions state) (index state)); [|discriminate].
      injection Hstep as <-. reflexivity.
    + discriminate.
Qed.

Lemma questions_change_only_on_load_witness :
  (forall payload,
     ~ In (dataReceived payload) [start; newAnswer 1; nextQuestion; tick]) /\
  dispatchAll readyState [start; newAnswer 1; nextQuestion; tick] =
    Return {| questions := [q10; q15; q20];
              status := active;
              index := 1;
              answer := None;
              points := 10;
              highscore := 0;
              secondsRemaining := Some 89 |} /\
  questions {| questions := [q10; q15; q20];
               status := active;
               index := 1;
               answer := None;
               points := 10;
               highscore := 0;
               secondsRemaining := Some 89 |} = questions readyState.
Proof.
  assert (Hnone : forall payload,
            ~ In (dataReceived payload)
                 [start; newAnswer 1; nextQuestion; tick]).
  { intros payload Hin. simpl in Hin.
    repeat (destruct Hin as [Hin|Hin]; [discriminate|]). exact Hin. }
  split; [exact Hnone|]. split; [reflexivity|].
  exact (questions_change_only_on_load _ readyState _ Hnone eq_refl).
Defined.

(** One step never enters [loading], and enters [error] only by
    [dataFailed]. *)
Lemma reducer_status_sources (state next : State) (action : Action) :
  reducer state action = Return next ->
  (status next = loading -> status state = loading) /\
  (status next = error -> status state = error \/ action = dataFailed).
Proof.
  destruct action; simpl; intros Hreturn;
    try (injection Hreturn as <-; simpl;
         split; intros Hstatus; try discriminate; auto).
  - destruct (Array_at (questions state) (index state)); [|discriminate].
    injection Hreturn as <-. simpl. auto.
  - destruct (ToNumber (secondsRemaining state) - 1 <=? 0);
      [discriminate | assumption].
  - destruct (ToNumber (secondsRemaining state) - 1 <=? 0);
      [discriminate | auto].
  - discriminate.
Qed.

(** X5. No case of the reducer sets the status to 'loading', and only
    [dataFailed] sets it to 'error': a run from a state that is not loading
    never returns a loading state, and a run that returns an error state
    started in one or dispatched [dataFailed]. *)
Theorem status_sources (actions : list Action) :
  forall state next,
    dispatchAll state actions = Return next ->
    (status state <> loading -> status next <> loading) /\
    (status next = error -> status state = error \/ In dataFailed actions).
Proof.
  induction actions as [|action actions IH]; intros state next; simpl.
  - intros Hreturn. injection Hreturn as <-. auto.
  - destruct (reducer state action) as [middle|] eqn:Hstep; [|discriminate].
    intros Hrest.
    destruct (reducer_status_sources _ _ _ Hstep) as [Hloading Herror].
    destruct (IH _ _ Hrest) as [IHloading IHerror]. split.
    + intros Hleft. apply IHloading. intros Hmiddle. auto.
    + intros Hnext. destruct (IHerror Hnext) as [Hmiddle|Hin]; [|auto].
      destruct (Herror Hmiddle) as [Hstate| ->]; auto.
Qed.

Lemma status_sources_witness :
  dispatchAll initialState [dataFailed; nextQuestion] =
    Return {| questions := [];
              status := error;
              index := 1;
              answer := None;
              points := 0;
              highscore := 0;
              secondsRemaining := None |} /\
  (status initialState = error \/ In dataFailed [dataFailed; nextQuestion]).
Proof.
  split; [reflexivity|].
  exact (proj2 (status_sources [dataFailed; nextQuestion] initialState _
                  eq_refl) eq_refl).
Defined.

(** X6. A run never lowers the high score, whatever the actions and the
    questions' points; and a run that ends with [finish] returns a finished
    state whose high score is at least its points. *)
Theorem run_ending_in_finish_records_points (actions : list Action) :
  forall state next,
    dispatchAll state (actions ++ [finish]) = Return next ->
    status next = finished /\
    points next <= highscore next /\
    highscore state <= highscore next.
Proof.
  intros state next Hrun.
  pose proof (dispatchAll_highscore_le _ _ _ Hrun) as Hmonotone.
  rewrite dispatchAll_app in Hrun.
  destruct (dispatchAll state actions) as [middle|]; [|discriminate].
  simpl in Hrun. injection Hrun as <-. simpl in *. repeat split; lia.
Qed.

Lemma run_ending_in_finish_records_points_witness :
  dispatchAll readyState ([start; newAnswer 1] ++ [finish]) =
    Return {| questions := [q10; q15; q20];
              status := finished;
              index := 0;
              answer := Some 1;
              points := 10;
              highscore := 10;
              secondsRemaining := Some 90 |} /\
  10 <= 10 /\
  highscore readyState <= 10.
Proof.
  split; [reflexivity|].
  exact (proj2 (run_ending_in_finish_records_points
                  [start; newAnswer 1] readyState _ eq_refl)).
Defined.

Lemma wellFormed_initialState : wellFormed initialState.
Proof.
  unfold wellFormed. simpl. repeat split; try lia; discriminate.
Qed.

Lemma wellFormed_step (state next : State) (action : Action) :
  wellFormed state ->
  reducer state action = Return next ->
  wellFormed next.
Proof.
  intros (Hindex & Hhigh & Hactive & Hloading) Hreturn.
  destruct action; simpl in Hreturn.
  - injection Hreturn as <-. unfold wellFormed. simpl.
    repeat split; try assumption; discriminate.
  - injection Hreturn as <-. unfold wellFormed. simpl.
    repeat split; try assumption; discriminate.
  - injection Hreturn as <-. unfold wellFormed. simpl.
    split; [assumption|]. split; [assumption|]. split; [|discriminate].
    intros _. eexists. split; [reflexivity|].
    unfold SECS_PER_QUESTION. split; [lia|].
    intros Hloaded. destruct (questions state); [congruence|].
    simpl List.length. lia.
  - destruct (Array_at (questions state) (index state))
      as [question|] eqn:Hcurrent; [|discriminate].
    injection Hreturn as <-. unfold wellFormed. simpl.
    split; [assumption|]. split; [assumption|]. split; [assumption|].
    intros Hstatus. destruct (Hloading Hstatus) as (Hempty & _).
    rewrite Hempty in Hcurrent.
    assert (Hnone : @Array_at Question.t [] (index state) = None)
      by (apply Array_at_None; simpl; lia).
    congruence.
  - injection Hreturn as <-. unfold wellFormed. simpl.
    split; [lia|]. split; [assumption|]. split; assumption.
  - injection Hreturn as <-. unfold wellFormed. simpl.
    split; [assumption|]. split; [lia|]. split; discriminate.
  - injection Hreturn as <-. unfold wellFormed. simpl.
    split; [lia|]. split; [assumption|]. split; discriminate.
  - injection Hreturn as <-. unfold wellFormed. simpl.
    split; [assumption|]. split; [assumption|].
    destruct (ToNumber (secondsRemaining state) - 1 <=? 0) eqn:Hexpired;
      [split; discriminate|].
    apply Z.leb_gt in Hexpired. split.
    + intros Hstatus.
      destruct (Hactive Hstatus) as (seconds & Hclock & _).
      rewrite Hclock in *. simpl in *.
      eexists. split; [reflexivity|]. split; [lia|]. intros _. lia.
    + intros Hstatus. destruct (Hloading Hstatus) as (_ & Hclock & _).
      rewrite Hclock in Hexpired. simpl in Hexpired. lia.
  - discriminate.
Qed.

(** X7. In every state that dispatches from [initialState] reach: the index
    and the high score are not negative; an active quiz has a clock, not
    negative, and above zero when questions are loaded; a state still
    loading has no questions, no clock and no points; and [newAnswer]
    returns a state exactly when the index is below the number of
    questions. *)
Theorem reachable_wellFormed (state : State) :
  reachable state ->
  wellFormed state /\
  (forall payload,
     (exists next, reducer state (newAnswer payload) = Return next) <->
     index state < numQuestions (questions state)).
Proof.
  intros [actions Hrun].
  assert (Hwf : wellFormed state).
  { apply (dispatchAll_preserves wellFormed) with actions initialState;
      [|exact wellFormed_initialState | exact Hrun].
    intros before action after. apply wellFormed_step. }
  split; [exact Hwf|].
  destruct Hwf as (Hindex & _). intros payload.
  unfold numQuestions, reducer.
  pose proof (Array_at_None (questions state) (index state)) as Hnone.
  destruct (Array_at (questions state) (index state)) as [question|].
  - split.
    + intros _.
      destruct (Z.lt_ge_cases (index state)
                  (Z.of_nat (List.length (questions state))))
        as [Hin|Hout]; [exact Hin|].
      assert (Hfalse : Some question = None) by (apply Hnone; lia).
      discriminate Hfalse.
    + intros _. eexists. reflexivity.
  - split.
    + intros [next Hreturn]. discriminate Hreturn.
    + intros Hin. destruct Hnone as [Hnone _].
      contradiction (Hnone eq_refl). lia.
Qed.

Lemma reachable_wellFormed_witness :
  reachable {| questions := [q10];
               status := active;
               index := 1;
               answer := None;
               points := 10;
               highscore := 0;
               secondsRemaining := Some 29 |} /\
  ~ (exists next,
       reducer {| questions := [q10];
                  status := active;
                  index := 1;
                  answer := None;
                  points := 10;
                  highscore := 0;
                  secondsRemaining := Some 29 |} (newAnswer 0)
       = Return next).
Proof.
  assert (Hreachable :
    reachable {| questions := [q10];
                 status := active;
                 index := 1;
                 answer := None;
                 points := 10;
                 highscore := 0;
                 secondsRemaining := Some 29 |}).
  { exists [dataReceived [q10]; start; newAnswer 1; tick; nextQuestion].
    reflexivity. }
  split; [exact Hreachable|].
  intros Hreturns.
  apply (proj2 (reachable_wellFormed _ Hreachable) 0) in Hreturns.
  unfold numQuestions in Hreturns. simpl in Hreturns. lia.
Defined.

(** ** The option buttons and the Next button *)

Lemma Array_map_length {A B : Type} (callback : A -> Z -> B)
  (array : list A) :
  forall index,
    List.length (Array_map callback index array) = List.length array.
Proof.
  induction array as [|element rest IH]; intros index; simpl;
    [reflexivity | now rewrite IH].
Qed.

Lemma Array_map_nth_error {A B : Type} (callback : A -> Z -> B)
  (array : list A) :
  forall (index : Z) (position : nat),
    nth_error (Array_map callback index array) position =
    option_map (fun element => callback element (index + Z.of_nat position))
               (nth_error array position).
Proof.
  induction array as [|element rest IH]; intros index position.
  - destruct position; reflexivity.
  - destruct position as [|position]; simpl.
    + now rewrite Z.add_0_r.
    + rewrite IH. destruct (nth_error rest position); simpl; [|reflexivity].
      do 2 f_equal. lia.
Qed.

(** The button that [Options] renders at a position. *)
Lemma Options_nth_error (question : Question.t) (answer : option Z)
  (position : nat) :
  nth_error (Options question answer) position =
  option_map
    (fun option =>
       {| OptionButton.key := option;
          OptionButton.className :=
            ("btn btn-option "
             ++ (if strictEquals (Z.of_nat position) answer
                 then "answer" else "")
             ++ " "
             ++ (if isNotNull answer
                 then if (Z.of_nat position
                          =? Question.correctOption question)%Z
                      then "correct" else "wrong"
                 else ""))%string;
          OptionButton.onClick := newAnswer (Z.of_nat position);
          OptionButton.disabled := isNotNull answer;
          OptionButton.children := option |})
    (nth_error (Question.options question) position).
Proof.
  unfold Options. rewrite Array_map_nth_error. reflexivity.
Qed.

(** X8. [Options] renders one button per option, in order. The button at
    position [i] shows option [i] and dispatches [newAnswer i]; every button
    is disabled exactly when an answer is recorded. Without an answer the
    class is 'btn btn-option' with two empty slots; with one, the first slot
    is 'answer' on the chosen button only and the second is 'correct' on the
    button at [correctOption] and 'wrong' on all others. *)
Theorem Options_buttons (question : Question.t) (answer : option Z) :
  List.length (Options question answer)
    = List.length (Question.options question) /\
  forall (position : nat) (button : OptionButton.t),
    nth_error (Options question answer) position = Some button ->
    nth_error (Question.options question) position
      = Some (OptionButton.children button) /\
    OptionButton.key button = OptionButton.children button /\
    OptionButton.onClick button = newAnswer (Z.of_nat position) /\
    OptionButton.disabled button = isNotNull answer /\
    OptionButton.className button =
      match answer with
      | None => "btn btn-option  "
      | Some chosen =>
          ("btn btn-option "
           ++ (if (Z.of_nat position =? chosen)%Z then "answer" else "")
           ++ " "
           ++ (if (Z.of_nat position =? Question.correctOption question)%Z
               then "correct" else "wrong"))%string
      end.
Proof.
  unfold Options. split; [apply Array_map_length|].
  intros position button. rewrite Array_map_nth_error.
  destruct (nth_error (Question.options question) position) as [option|];
    [|discriminate].
  simpl. intros Hbutton. injection Hbutton as <-. simpl.
  repeat split. destruct answer as [chosen|]; reflexivity.
Qed.

Lemma Options_buttons_witness :
  nth_error (Options q10 (Some 1)) 1 =
    Some {| OptionButton.key := "React";
            OptionButton.className := "btn btn-option answer correct";
            OptionButton.onClick := newAnswer 1;
            OptionButton.disabled := true;
            OptionButton.children := "React" |} /\
  OptionButton.className
    {| OptionButton.key := "React";
       OptionButton.className := "btn btn-option answer correct";
       OptionButton.onClick := newAnswer 1;
       OptionButton.disabled := true;
       OptionButton.children := "React" |}
  = "btn btn-option answer correct".
Proof.
  split; [reflexivity|].
  exact (proj2 (proj2 (proj2 (proj2
    (proj2 (Options_buttons q10 (Some 1)) 1%nat _ eq_refl))))).
Defined.

(** What a button of [Options] is, whatever its position. *)
Lemma Options_In (question : Question.t) (answer : option Z)
  (button : OptionButton.t) :
  In button (Options question answer) ->
  OptionButton.disabled button = isNotNull answer /\
  exists position : nat,
    (position < List.length (Question.options question))%nat /\
    OptionButton.onClick button = newAnswer (Z.of_nat position).
Proof.
  intros Hin. apply In_nth_error in Hin. destruct Hin as [position Hnth].
  rewrite Options_nth_error in Hnth.
  destruct (nth_error (Question.options question) position)
    as [option|] eqn:Hoption; [|discriminate].
  injection Hnth as <-. split; [reflexivity|].
  exists position. split; [|reflexivity].
  apply nth_error_Some. congruence.
Qed.

(** What [NextButton] renders, case by case. *)
Lemma NextButton_Some (answer : option Z) (numQuestions index : Z)
  (button : Button) :
  NextButton answer numQuestions index = Some button ->
  answer <> None /\
  (index < numQuestions - 1 /\ onClick button = nextQuestion \/
   index = numQuestions - 1 /\ onClick button = finish).
Proof.
  unfold NextButton. destruct answer as [chosen|]; [|discriminate].
  destruct (index <? numQuestions - 1) eqn:Hbefore.
  - apply Z.ltb_lt in Hbefore. intros Hbutton. injection Hbutton as <-.
    split; [discriminate | left; split; [exact Hbefore | reflexivity]].
  - destruct (index =? numQuestions - 1) eqn:Hlast; [|discriminate].
    apply Z.eqb_eq in Hlast. intros Hbutton. injection Hbutton as <-.
    split; [discriminate | right; split; [exact Hlast | reflexivity]].
Qed.

(** X9. Answering and moving on alternate. While no answer is recorded,
    [NextButton] renders nothing and no option button is disabled; once one
    is recorded, every option button is disabled and [NextButton] renders a
    button exactly when the index is at most numQuestions - 1. *)
Theorem answer_and_next_alternate
  (question : Question.t) (answer : option Z) (numQuestions index : Z) :
  (answer = None ->
   NextButton answer numQuestions index = None /\
   forall button,
     In button (Options question answer) ->
     OptionButton.disabled button = false) /\
  (answer <> None ->
   (forall button,
      In button (Options question answer) ->
      OptionButton.disabled button = true) /\
   (NextButton answer numQuestions index <> None <->
    index <= numQuestions - 1)).
Proof.
  split.
  - intros ->. split; [reflexivity|].
    intros button Hin. now destruct (Options_In _ _ _ Hin) as [-> _].
  - intros Hanswered. destruct answer as [chosen|]; [|congruence]. split.
    + intros button Hin. now destruct (Options_In _ _ _ Hin) as [-> _].
    + unfold NextButton.
      destruct (index <? numQuestions - 1) eqn:Hbefore.
      * apply Z.ltb_lt in Hbefore. split; [lia | discriminate].
      * apply Z.ltb_ge in Hbefore.
        destruct (index =? numQuestions - 1) eqn:Hlast.
        -- apply Z.eqb_eq in Hlast. split; [lia | discriminate].
        -- apply Z.eqb_neq in Hlast. split; [congruence | lia].
Qed.

Lemma answer_and_next_alternate_witness :
  (NextButton None 3 1 = None /\
   forall button,
     In button (Options q15 None) ->
     OptionButton.disabled button = false) /\
  ((forall button,
      In button (Options q15 (Some 2)) ->
      OptionButton.disabled button = true) /\
   (NextButton (Some 2) 3 1 <> None <-> 1 <= 3 - 1)).
Proof.
  split.
  - exact (proj1 (answer_and_next_alternate q15 None 3 1) eq_refl).
  - apply (proj2 (answer_and_next_alternate q15 (Some 2) 3 1)).
    discriminate.
Defined.

(** ** The points a play-through can reach *)

Lemma maxPoints_from (questions : list Question.t) :
  forall start : Z,
    fold_left (fun acc q => acc + Question.points q) questions start
    = start + maxPoints questions.
Proof.
  unfold maxPoints.
  induction questions as [|question rest IH]; intros start; simpl.
  - lia.
  - rewrite IH, (IH (Question.points question)). lia.
Qed.

Lemma maxPoints_cons (question : Question.t) (rest : list Question.t) :
  maxPoints (question :: rest) = Question.points question + maxPoints rest.
Proof.
  unfold maxPoints at 1. simpl. apply maxPoints_from.
Qed.

Lemma maxPoints_app (front back : list Question.t) :
  maxPoints (front ++ back) = maxPoints front + maxPoints back.
Proof.
  unfold maxPoints at 1. rewrite fold_left_app.
  fold (maxPoints front). apply maxPoints_from.
Qed.

Lemma maxPoints_nonneg (questions : list Question.t) :
  Forall (fun question => 0 <= Question.points question) questions ->
  0 <= maxPoints questions.
Proof.
  induction 1 as [|question rest Hpoints _ IH].
  - reflexivity.
  - rewrite maxPoints_cons. lia.
Qed.

Lemma maxPoints_firstn_le (questions : list Question.t) (n : nat) :
  Forall (fun question => 0 <= Question.points question) questions ->
  maxPoints (firstn n questions) <= maxPoints questions.
Proof.
  intros Hpoints.
  rewrite <- (firstn_skipn n questions) at 2. rewrite maxPoints_app.
  assert (0 <= maxPoints (skipn n questions)); [|lia].
  apply maxPoints_nonneg. rewrite <- (firstn_skipn n questions) in Hpoints.
  now apply Forall_app in Hpoints.
Qed.

Lemma firstn_succ_nth {A : Type} (array : list A) :
  forall (n : nat) (element : A),
    nth_error array n = Some element ->
    firstn (S n) array = firstn n array ++ [element].
Proof.
  induction array as [|head rest IH]; intros n element.
  - destruct n; discriminate.
  - destruct n as [|n]; simpl.
    + intros Hhead. injection Hhead as <-. reflexivity.
    + intros Hnth. f_equal. now apply IH.
Qed.

(** One offered action keeps the play-through in bounds. *)
Lemma inPlay_step (loaded : list Question.t) (best : Z)
  (state : State) (action : Action) :
  Forall (fun question => 0 <= Question.points question) loaded ->
  inPlay loaded best state ->
  offers state action ->
  exists next, reducer state action = Return next /\ inPlay loaded best next.
Proof.
  intros Hpoints (Hquestions & Hindex & Hrange & Hanswered & Hlow & Hhigh & Hbest)
         Hoffers.
  destruct Hoffers as [|question button Hcurrent Hin Henabled|button Hnext].
  - eexists. split; [reflexivity|].
    unfold inPlay, answered in *. simpl. tauto.
  - destruct (Options_In _ _ _ Hin) as [Hdisabled (position & _ & Hclick)].
    rewrite Hclick. unfold reducer. rewrite Hcurrent.
    eexists. split; [reflexivity|].
    assert (Hnoanswer : answer state = None).
    { rewrite Henabled in Hdisabled. now destruct (answer state). }
    assert (Hbelow : index state < numQuestions loaded).
    { unfold numQuestions. rewrite <- Hquestions.
      destruct (Z.lt_ge_cases (index state)
                  (Z.of_nat (List.length (questions state))))
        as [Hlt|Hge]; [exact Hlt|].
      assert (Hnone : Array_at (questions state) (index state) = None)
        by (apply Array_at_None; lia).
      congruence. }
    assert (Hnth : nth_error loaded (Z.to_nat (index state)) = Some question).
    { rewrite <- Hquestions, <- Hcurrent. symmetry. apply Array_at_nth.
      unfold numQuestions in Hbelow. rewrite Hquestions. lia. }
    assert (Hworth : 0 <= Question.points question).
    { rewrite Forall_forall in Hpoints. apply Hpoints.
      now apply nth_error_In in Hnth. }
    unfold inPlay, answered in *. simpl. rewrite Hnoanswer in Hhigh.
    simpl in Hhigh. rewrite Nat.add_0_r in Hhigh.
    replace (Z.to_nat (index state) + 1)%nat
      with (S (Z.to_nat (index state))) by lia.
    rewrite (firstn_succ_nth _ _ _ Hnth), maxPoints_app, maxPoints_cons.
    change (maxPoints []) with 0.
    repeat split; try assumption; try (intros _; assumption);
      destruct (Z.of_nat position =? Question.correctOption question); lia.
  - apply NextButton_Some in Hnext.
    destruct Hnext as [Hgiven [[Hbefore ->]|[Hlast ->]]].
    + eexists. split; [reflexivity|].
      unfold inPlay, answered in *. simpl.
      destruct (answer state) as [chosen|]; [|congruence]. simpl in Hhigh.
      rewrite Hquestions in Hbefore.
      replace (Z.to_nat (index state + 1) + 0)%nat
        with (Z.to_nat (index state) + 1)%nat by lia.
      repeat split; try assumption; try lia; try congruence.
    + eexists. split; [reflexivity|].
      unfold inPlay, answered in *. simpl.
      repeat split; try assumption.
      pose proof (maxPoints_firstn_le loaded
        (Z.to_nat (index state)
         + (if isNotNull (answer state) then 1 else 0))%nat Hpoints).
      lia.
Qed.

(** So does a whole run of offered actions. *)
Lemma inPlay_run (loaded : list Question.t) (best : Z)
  (actions : list Action) :
  Forall (fun question => 0 <= Question.points question) loaded ->
  forall state,
    inPlay loaded best state ->
    driven state actions ->
    exists next,
      dispatchAll state actions = Return next /\ inPlay loaded best next.
Proof.
  intros Hpoints.
  induction actions as [|action actions IH]; intros state Hstart Hdriven.
  - exists state. split; [reflexivity | exact Hstart].
  - destruct Hdriven as [Hoffers Hrest].
    destruct (inPlay_step loaded best state action Hpoints Hstart Hoffers)
      as (middle & Hstep & Hmiddle).
    simpl. rewrite Hstep in *. now apply IH.
Qed.


(** The option button at a position offers that position as the answer. *)
Lemma offers_newAnswer (state : State) (question : Question.t)
  (position : nat) (option : string) :
  Array_at (questions state) (index state) = Some question ->
  answer state = None ->
  nth_error (Question.options question) position = Some option ->
  offers state (newAnswer (Z.of_nat position)).
Proof.
  intros Hcurrent Hanswer Hoption.
  assert (Hbutton :
    nth_error (Options question (answer state)) position =
    Some {| OptionButton.key := option;
            OptionButton.className := "btn btn-option  ";
            OptionButton.onClick := newAnswer (Z.of_nat position);
            OptionButton.disabled := false;
            OptionButton.children := option |}).
  { unfold Options. rewrite Array_map_nth_error, Hoption, Hanswer.
    reflexivity. }
  apply nth_error_In in Hbutton.
  exact (offers_option state question _ Hcurrent Hbutton eq_refl).
Qed.

Lemma offers_nextQuestion (state : State) :
  answer state <> None ->
  index state < numQuestions (questions state) - 1 ->
  offers state nextQuestion.
Proof.
  intros Hanswer Hbefore.
  apply (offers_next state {| label := "Next"; onClick := nextQuestion |}).
  unfold NextButton. destruct (answer state); [|congruence].
  apply Z.ltb_lt in Hbefore. now rewrite Hbefore.
Qed.

Lemma offers_finish (state : State) :
  answer state <> None ->
  index state = numQuestions (questions state) - 1 ->
  offers state finish.
Proof.
  intros Hanswer Hlast.
  apply (offers_next state {| label := "Finish"; onClick := finish |}).
  unfold NextButton. destruct (answer state); [|congruence].
  rewrite Hlast, Z.ltb_irrefl, Z.eqb_refl. reflexivity.
Qed.


(** ** The perfect play-through *)

Lemma Array_at_middle {A : Type} (front back : list A) (element : A) :
  Array_at (front ++ element :: back) (Z.of_nat (List.length front))
  = Some element.
Proof.
  rewrite Array_at_nth by (rewrite length_app; simpl; lia).
  rewrite Nat2Z.id, nth_error_app2 by lia.
  now rewrite Nat.sub_diag.
Qed.

Lemma perfectRun_from (todo : list Question.t) :
  forall (done : list Question.t) (state : State),
    todo <> [] ->
    questions state = done ++ todo ->
    index state = Z.of_nat (List.length done) ->
    exists next,
      dispatchAll state (perfectRun todo) = Return next /\
      questions next = questions state /\
      status next = finished /\
      index next = Z.of_nat (List.length done + List.length todo) - 1 /\
      points next = points state + maxPoints todo /\
      highscore next = Z.max (points next) (highscore state) /\
      secondsRemaining next = secondsRemaining state.
Proof.
  induction todo as [|question rest IH]; intros done state Hsome Hquestions Hindex;
    [congruence|].
  assert (Hcurrent :
    Array_at (questions state) (index state) = Some question)
    by (rewrite Hquestions, Hindex; apply Array_at_middle).
  cbn [perfectRun dispatchAll]. unfold reducer at 1.
  rewrite Hcurrent, Z.eqb_refl.
  destruct rest as [|following rest].
  - eexists. split; [reflexivity|]. simpl.
    rewrite maxPoints_cons. change (maxPoints []) with 0.
    repeat split; lia.
  - cbn [dispatchAll reducer].
    match goal with
    | |- context [dispatchAll ?middle (perfectRun _)] =>
        destruct (IH (done ++ [question]) middle) as (next & Hrun & Hrest)
    end.
    + discriminate.
    + simpl. rewrite Hquestions, <- app_assoc. reflexivity.
    + simpl. rewrite Hindex, length_app. simpl. lia.
    + exists next. split; [exact Hrun|].
      simpl in Hrest.
      destruct Hrest as (Hq & Hstatus & Hi & Hpoints & Hhigh & Hclock).
      rewrite (maxPoints_cons question), length_app in *. simpl in *.
      repeat split; try assumption; lia.
Qed.

(** X11. [maxPoints] is what a perfect play-through scores. From the first
    question with no points, answering every question with its correct
    option (Next after each answer, Finish after the last) returns a
    finished state on the last question whose points are [maxPoints] and
    whose high score is the larger of [maxPoints] and the old high score. *)
Theorem perfect_run_scores_maxPoints (state : State) :
  questions state <> [] ->
  index state = 0 ->
  points state = 0 ->
  exists next,
    dispatchAll state (perfectRun (questions state)) = Return next /\
    questions next = questions state /\
    status next = finished /\
    index next = numQuestions (questions state) - 1 /\
    points next = maxPoints (questions state) /\
    highscore next = Z.max (maxPoints (questions state)) (highscore state) /\
    secondsRemaining next = secondsRemaining state.
Proof.
  intros Hloaded Hindex Hzero.
  destruct (perfectRun_from (questions state) [] state Hloaded eq_refl Hindex)
    as (next & Hrun & Hq & Hstatus & Hi & Hpoints & Hhigh & Hclock).
  exists next. unfold numQuestions. simpl in Hi.
  rewrite Hzero in Hpoints. simpl in Hpoints. rewrite Hpoints in Hhigh.
  repeat split; assumption.
Qed.

Lemma perfect_run_scores_maxPoints_witness :
  questions startedState <> [] /\
  exists next,
    dispatchAll startedState (perfectRun (questions startedState))
      = Return next /\
    questions next = questions startedState /\
    status next = finished /\
    index next = numQuestions (questions startedState) - 1 /\
    points next = maxPoints (questions startedState) /\
    highscore next
      = Z.max (maxPoints (questions startedState)) (highscore startedState) /\
    secondsRemaining next = secondsRemaining startedState.
Proof.
  assert (Hloaded : questions startedState <> []) by discriminate.
  split; [exact Hloaded|].
  exact (perfect_run_scores_maxPoints startedState Hloaded eq_refl eq_refl).
Defined.

(** ** The timer display *)

(** The length of a concatenation. *)
Lemma append_length (front back : string) :
  String.length (front ++ back)%string
  = (String.length front + String.length back)%nat.
Proof.
  induction front as [|c front IH]; simpl; [reflexivity | now rewrite IH].
Qed.

(** [String(n)] reads back as [n]. *)
Lemma readDecimal_String_of (n : Z) : readDecimal (String_of n) = Some n.
Proof.
  unfold readDecimal, String_of.
  rewrite NilZero.isi.
  - simpl. now rewrite DecimalZ.of_to.
  - destruct n as [|p|p]; try discriminate.
    simpl. intros Hnil. injection Hnil as Hnil.
    exact (DecimalPos.Unsigned.to_uint_nonnil p Hnil).
  - destruct n as [|p|p]; try discriminate.
    simpl. intros Hnil. injection Hnil as Hnil.
    exact (DecimalPos.Unsigned.to_uint_nonnil p Hnil).
Qed.

(** A numeral of at most one character is a single digit. *)
Lemma readDecimal_short (s : string) (n : Z) :
  readDecimal s = Some n ->
  (String.length s <= 1)%nat ->
  0 <= n < 10.
Proof.
  destruct s as [|c [|c' s]]; simpl; [discriminate | | lia].
  intros Hread _.
  destruct c as [[|] [|] [|] [|] [|] [|] [|] [|]];
    vm_compute in Hread; try discriminate;
    injection Hread as <-; lia.
Qed.

(** From 10 up, [String(n)] has two characters or more, and padding to two
    leaves it alone. *)
Lemma padStart_String_of_large (n : Z) :
  10 <= n ->
  padStart 2 "0" (String_of n) = String_of n /\
  (2 <= String.length (String_of n))%nat.
Proof.
  intros Hlarge.
  assert (Hlength : (2 <= String.length (String_of n))%nat).
  { destruct (Nat.le_gt_cases 2 (String.length (String_of n)))
      as [Hlong|Hshort]; [exact Hlong|].
    pose proof (readDecimal_short _ _ (readDecimal_String_of n)). lia. }
  split; [|exact Hlength].
  unfold padStart. apply Nat.leb_le in Hlength. now rewrite Hlength.
Qed.

(** Below 100, the padded numeral has exactly two characters. *)
Lemma padStart_String_of_two_digits (n : Z) :
  0 <= n < 100 ->
  String.length (padStart 2 "0" (String_of n)) = 2%nat.
Proof.
  intros Hrange.
  assert (Hall :
    forallb (fun k => (String.length
                         (padStart 2 "0" (String_of (Z.of_nat k))) =? 2)%nat)
            (seq 0 100) = true) by (vm_compute; reflexivity).
  rewrite forallb_forall in Hall.
  specialize (Hall (Z.to_nat n)).
  rewrite Z2Nat.id in Hall by lia.
  apply Nat.eqb_eq, Hall, in_seq. lia.
Qed.

(** The padded numeral of a number that is not negative reads back as the
    number and has at least two characters. *)
Lemma padStart_String_of_reads_back (n : Z) :
  0 <= n ->
  readDecimal (padStart 2 "0" (String_of n)) = Some n /\
  (2 <= String.length (padStart 2 "0" (String_of n)))%nat.
Proof.
  intros Hnonneg.
  destruct (Z.lt_ge_cases n 10) as [Hsmall|Hlarge].
  - split.
    + assert (Hall :
        forallb (fun k =>
                   match readDecimal
                           (padStart 2 "0" (String_of (Z.of_nat k))) with
                   | Some value => value =? Z.of_nat k
                   | None => false
                   end)
                (seq 0 10) = true) by (vm_compute; reflexivity).
      rewrite forallb_forall in Hall.
      specialize (Hall (Z.to_nat n)).
      rewrite Z2Nat.id in Hall by lia.
      destruct (readDecimal (padStart 2 "0" (String_of n))) as [value|].
      * f_equal. apply Z.eqb_eq, Hall, in_seq. lia.
      * discriminate Hall. apply in_seq. lia.
    + rewrite padStart_String_of_two_digits; lia.
  - destruct (padStart_String_of_large n Hlarge) as [-> Hlength].
    split; [apply readDecimal_String_of | exact Hlength].
Qed.

(** X12. For a clock that is [null] or not negative, the timer shows
    minutes, a colon and seconds: the minutes field has at least two
    characters (exactly two below 100 minutes) and reads back as
    floor(seconds / 60); the seconds field has exactly two characters and
    reads back as the remainder, between 0 and 59; together they give the
    clock back. A [null] clock shows as 0. *)
Theorem Timer_shows_minutes_and_seconds (secondsRemaining : option Z) :
  0 <= ToNumber secondsRemaining ->
  exists (minutesField secondsField : string) (minutes seconds : Z),
    Timer secondsRemaining
      = (minutesField ++ ":" ++ secondsField)%string /\
    readDecimal minutesField = Some minutes /\
    readDecimal secondsField = Some seconds /\
    60 * minutes + seconds = ToNumber secondsRemaining /\
    0 <= seconds < 60 /\
    String.length secondsField = 2%nat /\
    (2 <= String.length minutesField)%nat /\
    (ToNumber secondsRemaining < 6000 ->
     String.length minutesField = 2%nat /\
     String.length (Timer secondsRemaining) = 5%nat).
Proof.
  intros Hnonneg.
  set (clock := ToNumber secondsRemaining) in *.
  assert (Hminutes : 0 <= clock / 60) by (apply Z.div_pos; lia).
  assert (Hseconds : 0 <= Z.rem clock 60 < 60)
    by (apply Z.rem_bound_pos; lia).
  assert (Hsplit : 60 * (clock / 60) + Z.rem clock 60 = clock).
  { rewrite Z.rem_mod_nonneg by lia. symmetry. apply Z.div_mod. lia. }
  destruct (padStart_String_of_reads_back (clock / 60) Hminutes)
    as [HreadMinutes HlengthMinutes].
  destruct (padStart_String_of_reads_back (Z.rem clock 60))
    as [HreadSeconds _]; [lia|].
  assert (HlengthSeconds :
    String.length (padStart 2 "0" (String_of (Z.rem clock 60))) = 2%nat)
    by (apply padStart_String_of_two_digits; lia).
  exists (padStart 2 "0" (Timer_mins secondsRemaining)),
         (padStart 2 "0" (Timer_secs secondsRemaining)),
         (clock / 60), (Z.rem clock 60).
  unfold Timer, Timer_mins, Timer_secs. fold clock.
  split; [reflexivity|]. split; [exact HreadMinutes|].
  split; [exact HreadSeconds|]. split; [exact Hsplit|].
  split; [exact Hseconds|]. split; [exact HlengthSeconds|].
  split; [exact HlengthMinutes|].
  intros Hshort.
  assert (HtwoMinutes :
    String.length (padStart 2 "0" (String_of (clock / 60))) = 2%nat).
  { apply padStart_String_of_two_digits. split; [exact Hminutes|].
    apply Z.div_lt_upper_bound; lia. }
  split; [exact HtwoMinutes|].
  rewrite !append_length, HtwoMinutes, HlengthSeconds. reflexivity.
Qed.

Lemma Timer_shows_minutes_and_seconds_witness :
  0 <= ToNumber (Some 75) /\
  Timer (Some 75) = "01:15" /\
  exists (minutesField secondsField : string) (minutes seconds : Z),
    Timer (Some 75) = (minutesField ++ ":" ++ secondsField)%string /\
    readDecimal minutesField = Some minutes /\
    readDecimal secondsField = Some seconds /\
    60 * minutes + seconds = ToNumber (Some 75) /\
    0 <= seconds < 60 /\
    String.length secondsField = 2%nat /\
    (2 <= String.length minutesField)%nat /\
    (ToNumber (Some 75) < 6000 ->
     String.length minutesField = 2%nat /\
     String.length (Timer (Some 75)) = 5%nat).
Proof.
  assert (Hnonneg : 0 <= ToNumber (Some 75)) by (simpl; lia).
  split; [exact Hnonneg|]. split; [reflexivity|].
  exact (Timer_shows_minutes_and_seconds (Some 75) Hnonneg).
Defined.

(** ** What the buttons show and what the reducer scores *)

(** X13. The marking of the options agrees with the scoring. Take the
    question at the current index and any recorded answer: the option button
    whose class ends in 'correct' is the one whose [newAnswer] makes the
    reducer add the question's points, and a click on a button whose class
    ends in 'wrong' leaves the points as they are. *)
Theorem marked_correct_iff_scores
  (state : State) (question : Question.t) (chosen : Z)
  (position : nat) (button : OptionButton.t) :
  Array_at (questions state) (index state) = Some question ->
  nth_error (Options question (Some chosen)) position = Some button ->
  exists next,
    reducer state (OptionButton.onClick button) = Return next /\
    answer next = Some (Z.of_nat position) /\
    (Z.of_nat position = Question.correctOption question ->
     points next = points state + Question.points question /\
     OptionButton.className button =
       ("btn btn-option "
        ++ (if (Z.of_nat position =? chosen)%Z then "answer" else "")
        ++ " correct")%string) /\
    (Z.of_nat position <> Question.correctOption question ->
     points next = points state /\
     OptionButton.className button =
       ("btn btn-option "
        ++ (if (Z.of_nat position =? chosen)%Z then "answer" else "")
        ++ " wrong")%string).
Proof.
  intros Hcurrent Hbutton.
  rewrite Options_nth_error in Hbutton.
  destruct (nth_error (Question.options question) position) as [option|];
    [|discriminate].
  injection Hbutton as <-.
  cbn [OptionButton.onClick OptionButton.className isNotNull strictEquals].
  unfold reducer. rewrite Hcurrent.
  eexists. split; [reflexivity|]. simpl. split; [reflexivity|]. split.
  - intros Hcorrect. apply Z.eqb_eq in Hcorrect. rewrite Hcorrect.
    split; reflexivity.
  - intros Hwrong. apply Z.eqb_neq in Hwrong. rewrite Hwrong.
    split; reflexivity.
Qed.

Lemma marked_correct_iff_scores_witness :
  Array_at (questions askingState) (index askingState) = Some q15 /\
  nth_error (Options q15 (Some 0)) 2 =
    Some {| OptionButton.key := "Elements";
            OptionButton.className := "btn btn-option  correct";
            OptionButton.onClick := newAnswer 2;
            OptionButton.disabled := true;
            OptionButton.children := "Elements" |} /\
  exists next,
    reducer askingState (newAnswer 2) = Return next /\
    points next = points askingState + Question.points q15.
Proof.
  split; [reflexivity|]. split; [reflexivity|].
  destruct (marked_correct_iff_scores askingState q15 0 2 _ eq_refl eq_refl)
    as (next & Hreturn & _ & Hcorrect & _).
  exists next. split; [exact Hreturn|].
  exact (proj1 (Hcorrect eq_refl)).
Defined.
